(** * pyquil.gates: the instruction factory

    A shallow embedding of [pyquil/gates.py].  The module is a catalogue of
    constructor functions; every one of them hands its operands to one of two
    external normalizers ([unpack_qubit], [unpack_classical_reg] of
    [pyquil.quilatom]) and wraps the results into an instruction object of
    [pyquil.quilbase].

    The constructors are written once, over an arbitrary monad [M] in which
    the normalizers live.  They are then read in two monads:
    - [exc E], exceptions only, for what a call returns or raises;
    - [stexc W E], exceptions over a program state [W], for the calls of the
      normalizers that a constructor makes, and their order. *)

From stdpp Require Import base strings list gmap.

Set Default Proof Using "Type".

(** ** Python values *)

Module python.

(** A Python value is [None] or some other object.  [obj] is the type of
    the objects that are not [None] (integers, floats, symbolic
    expressions, placeholders, ...). *)
Inductive pyval (obj : Type) : Type :=
| PyNone
| PyObj (o : obj).
Global Arguments PyNone {obj}.
Global Arguments PyObj {obj} o.

(** [v is None] *)
Definition is_None {obj} (v : pyval obj) : bool :=
  match v with PyNone => true | PyObj _ => false end.

(** A function object, as a [def] statement creates it: one, two or three
    positional parameters, the last of two possibly with a default value.
    [V] is the type of the arguments and [R] the type of what the body
    computes. *)
Inductive function (V R : Type) : Type :=
| Def1 (body : V → R)
| Def2 (body : V → V → R)
| Def2_default (body : V → V → R) (default : V)
| Def3 (body : V → V → V → R).
Global Arguments Def1 {V R} body.
Global Arguments Def2 {V R} body.
Global Arguments Def2_default {V R} body default.
Global Arguments Def3 {V R} body.

(** The call of [f] on a tuple of positional arguments.  [None] stands for the
    interpreter refusing to bind the arguments to the parameters (too few or
    too many of them): the body of [f] is then not run at all. *)
Definition call {V R} (f : function V R) (args : list V) : option R :=
  match f, args with
  | Def1 body, [a] => Some (body a)
  | Def2 body, [a; b] => Some (body a b)
  | Def2_default body default, [a] => Some (body a default)
  | Def2_default body _, [a; b] => Some (body a b)
  | Def3 body, [a; b; c] => Some (body a b c)
  | _, _ => None
  end.

(** A dictionary display [{k1: v1, ..., kn: vn}]: the items are inserted
    from left to right, a later item replacing an earlier one with the same
    key. *)
Definition dict_display {V} (items : list (string * V)) : gmap string V :=
  foldl (λ d kv, <[kv.1 := kv.2]> d) ∅ items.

End python.

(** ** The instruction classes of pyquil.quilbase *)

Module quilbase.
Import python.

(** Modelled from the spec: the instruction classes imported from
    [pyquil.quilbase] ([Gate], [Measurement], [Wait], [Reset], [Halt],
    [Nop] and the classical instructions), which are not part of this
    module's source.  One constructor per variant of the spec's data model,
    with the fields the data model lists; a value has no identity beyond
    its fields. *)
Inductive AbstractInstruction (obj Qubit Addr : Type) : Type :=
| Gate (name : string) (params : list (pyval obj)) (qubits : list Qubit)
| Measurement (qubit : Qubit) (address : option Addr)
| Wait
| Reset
| Halt
| Nop
| ClassicalTrue (register : Addr)
| ClassicalFalse (register : Addr)
| ClassicalNot (register : Addr)
| ClassicalAnd (left right : Addr)
| ClassicalOr (left right : Addr)
| ClassicalMove (source destination : Addr)
| ClassicalExchange (first second : Addr).
Global Arguments Gate {obj Qubit Addr} name params qubits.
Global Arguments Measurement {obj Qubit Addr} qubit address.
Global Arguments Wait {obj Qubit Addr}.
Global Arguments Reset {obj Qubit Addr}.
Global Arguments Halt {obj Qubit Addr}.
Global Arguments Nop {obj Qubit Addr}.
Global Arguments ClassicalTrue {obj Qubit Addr} register.
Global Arguments ClassicalFalse {obj Qubit Addr} register.
Global Arguments ClassicalNot {obj Qubit Addr} register.
Global Arguments ClassicalAnd {obj Qubit Addr} left right.
Global Arguments ClassicalOr {obj Qubit Addr} left right.
Global Arguments ClassicalMove {obj Qubit Addr} source destination.
Global Arguments ClassicalExchange {obj Qubit Addr} first second.

(** The class of an instruction object. *)
Inductive variant : Set :=
| VGate | VMeasurement | VWait | VReset | VHalt | VNop
| VClassicalTrue | VClassicalFalse | VClassicalNot
| VClassicalAnd | VClassicalOr | VClassicalMove | VClassicalExchange.

Definition variant_of {obj Qubit Addr}
  (i : AbstractInstruction obj Qubit Addr) : variant :=
  match i with
  | Gate _ _ _ => VGate
  | Measurement _ _ => VMeasurement
  | Wait => VWait
  | Reset => VReset
  | Halt => VHalt
  | Nop => VNop
  | ClassicalTrue _ => VClassicalTrue
  | ClassicalFalse _ => VClassicalFalse
  | ClassicalNot _ => VClassicalNot
  | ClassicalAnd _ _ => VClassicalAnd
  | ClassicalOr _ _ => VClassicalOr
  | ClassicalMove _ _ => VClassicalMove
  | ClassicalExchange _ _ => VClassicalExchange
  end.

End quilbase.

(** ** pyquil/gates.py *)

Module gates.
Import python quilbase.

Section gates.
(** [obj]: Python objects; [Qubit], [Addr]: the canonical qubit and
    classical-register references the normalizers return. *)
Context {obj Qubit Addr : Type}.
(** The effects of the external calls. *)
Context {M : Type → Type} {M_bind : MBind M} {M_ret : MRet M}.
(** [from pyquil.quilatom import unpack_qubit, unpack_classical_reg] *)
Context (unpack_qubit : pyval obj → M Qubit).
Context (unpack_classical_reg : pyval obj → M Addr).

Local Abbreviation value := (pyval obj).
Local Abbreviation instr := (AbstractInstruction obj Qubit Addr).

Definition I (qubit : value) : M instr :=
  q ← unpack_qubit qubit; mret (Gate "I" [] [q]).

Definition X (qubit : value) : M instr :=
  q ← unpack_qubit qubit; mret (Gate "X" [] [q]).

Definition Y (qubit : value) : M instr :=
  q ← unpack_qubit qubit; mret (Gate "Y" [] [q]).

Definition Z (qubit : value) : M instr :=
  q ← unpack_qubit qubit; mret (Gate "Z" [] [q]).

Definition H (qubit : value) : M instr :=
  q ← unpack_qubit qubit; mret (Gate "H" [] [q]).

Definition S (qubit : value) : M instr :=
  q ← unpack_qubit qubit; mret (Gate "S" [] [q]).

Definition T (qubit : value) : M instr :=
  q ← unpack_qubit qubit; mret (Gate "T" [] [q]).

Definition RX (angle qubit : value) : M instr :=
  q ← unpack_qubit qubit; mret (Gate "RX" [angle] [q]).

Definition RY (angle qubit : value) : M instr :=
  q ← unpack_qubit qubit; mret (Gate "RY" [angle] [q]).

Definition RZ (angle qubit : value) : M instr :=
  q ← unpack_qubit qubit; mret (Gate "RZ" [angle] [q]).

Definition PHASE (angle qubit : value) : M instr :=
  q ← unpack_qubit qubit; mret (Gate "PHASE" [angle] [q]).

(** [[unpack_qubit(q) for q in (control, target)]] is [mapM]: the
    operands are normalized from left to right and the first failure
    ends the comprehension. *)
Definition CZ (control target : value) : M instr :=
  qubits ← mapM unpack_qubit [control; target];
  mret (Gate "CZ" [] qubits).

Definition CNOT (control target : value) : M instr :=
  qubits ← mapM unpack_qubit [control; target];
  mret (Gate "CNOT" [] qubits).

Definition CCNOT (control1 control2 target : value) : M instr :=
  qubits ← mapM unpack_qubit [control1; control2; target];
  mret (Gate "CCNOT" [] qubits).

Definition CPHASE00 (angle control target : value) : M instr :=
  qubits ← mapM unpack_qubit [control; target];
  mret (Gate "CPHASE00" [angle] qubits).

Definition CPHASE01 (angle control target : value) : M instr :=
  qubits ← mapM unpack_qubit [control; target];
  mret (Gate "CPHASE01" [angle] qubits).

Definition CPHASE10 (angle control target : value) : M instr :=
  qubits ← mapM unpack_qubit [control; target];
  mret (Gate "CPHASE10" [angle] qubits).

Definition CPHASE (angle control target : value) : M instr :=
  qubits ← mapM unpack_qubit [control; target];
  mret (Gate "CPHASE" [angle] qubits).

Definition SWAP (q1 q2 : value) : M instr :=
  qubits ← mapM unpack_qubit [q1; q2];
  mret (Gate "SWAP" [] qubits).

Definition CSWAP (control target_1 target_2 : value) : M instr :=
  qubits ← mapM unpack_qubit [control; target_1; target_2];
  mret (Gate "CSWAP" [] qubits).

Definition ISWAP (q1 q2 : value) : M instr :=
  qubits ← mapM unpack_qubit [q1; q2];
  mret (Gate "ISWAP" [] qubits).

Definition PSWAP (angle q1 q2 : value) : M instr :=
  qubits ← mapM unpack_qubit [q1; q2];
  mret (Gate "PSWAP" [angle] qubits).

(** The module-level constants [WAIT = Wait()], ... *)
Definition WAIT : instr := Wait.
Definition RESET : instr := Reset.
Definition NOP : instr := Nop.
Definition HALT : instr := Halt.

(** [def MEASURE(qubit, classical_reg=None)] *)
Definition MEASURE (qubit classical_reg : value) : M instr :=
  qubit ← unpack_qubit qubit;
  address ← (if is_None classical_reg then mret None
             else a ← unpack_classical_reg classical_reg; mret (Some a));
  mret (Measurement qubit address).

Definition TRUE (classical_reg : value) : M instr :=
  r ← unpack_classical_reg classical_reg; mret (ClassicalTrue r).

Definition FALSE (classical_reg : value) : M instr :=
  r ← unpack_classical_reg classical_reg; mret (ClassicalFalse r).

Definition NOT (classical_reg : value) : M instr :=
  r ← unpack_classical_reg classical_reg; mret (ClassicalNot r).

Definition AND (classical_reg1 classical_reg2 : value) : M instr :=
  left ← unpack_classical_reg classical_reg1;
  right ← unpack_classical_reg classical_reg2;
  mret (ClassicalAnd left right).

Definition OR (classical_reg1 classical_reg2 : value) : M instr :=
  left ← unpack_classical_reg classical_reg1;
  right ← unpack_classical_reg classical_reg2;
  mret (ClassicalOr left right).

Definition MOVE (classical_reg1 classical_reg2 : value) : M instr :=
  left ← unpack_classical_reg classical_reg1;
  right ← unpack_classical_reg classical_reg2;
  mret (ClassicalMove left right).

Definition EXCHANGE (classical_reg1 classical_reg2 : value) : M instr :=
  left ← unpack_classical_reg classical_reg1;
  right ← unpack_classical_reg classical_reg2;
  mret (ClassicalExchange left right).

Definition STANDARD_GATES : gmap string (function value (M instr)) :=
  dict_display
    [("I", Def1 I);
     ("X", Def1 X);
     ("Y", Def1 Y);
     ("Z", Def1 Z);
     ("H", Def1 H);
     ("S", Def1 S);
     ("T", Def1 T);
     ("PHASE", Def2 PHASE);
     ("RX", Def2 RX);
     ("RY", Def2 RY);
     ("RZ", Def2 RZ);
     ("CZ", Def2 CZ);
     ("CNOT", Def2 CNOT);
     ("CCNOT", Def3 CCNOT);
     ("CPHASE00", Def3 CPHASE00);
     ("CPHASE01", Def3 CPHASE01);
     ("CPHASE10", Def3 CPHASE10);
     ("CPHASE", Def3 CPHASE);
     ("SWAP", Def2 SWAP);
     ("CSWAP", Def3 CSWAP);
     ("ISWAP", Def2 ISWAP);
     ("PSWAP", Def3 PSWAP)].

(** The functions the module's [def] statements bind, by name: what a
    caller that writes [gates.NAME(...)] reaches. *)
Definition toplevel (name : string) : option (function value (M instr)) :=
  if decide (name = "I") then Some (Def1 I)
  else if decide (name = "X") then Some (Def1 X)
  else if decide (name = "Y") then Some (Def1 Y)
  else if decide (name = "Z") then Some (Def1 Z)
  else if decide (name = "H") then Some (Def1 H)
  else if decide (name = "S") then Some (Def1 S)
  else if decide (name = "T") then Some (Def1 T)
  else if decide (name = "RX") then Some (Def2 RX)
  else if decide (name = "RY") then Some (Def2 RY)
  else if decide (name = "RZ") then Some (Def2 RZ)
  else if decide (name = "PHASE") then Some (Def2 PHASE)
  else if decide (name = "CZ") then Some (Def2 CZ)
  else if decide (name = "CNOT") then Some (Def2 CNOT)
  else if decide (name = "CCNOT") then Some (Def3 CCNOT)
  else if decide (name = "CPHASE00") then Some (Def3 CPHASE00)
  else if decide (name = "CPHASE01") then Some (Def3 CPHASE01)
  else if decide (name = "CPHASE10") then Some (Def3 CPHASE10)
  else if decide (name = "CPHASE") then Some (Def3 CPHASE)
  else if decide (name = "SWAP") then Some (Def2 SWAP)
  else if decide (name = "CSWAP") then Some (Def3 CSWAP)
  else if decide (name = "ISWAP") then Some (Def2 ISWAP)
  else if decide (name = "PSWAP") then Some (Def3 PSWAP)
  else if decide (name = "MEASURE") then Some (Def2_default MEASURE PyNone)
  else if decide (name = "TRUE") then Some (Def1 TRUE)
  else if decide (name = "FALSE") then Some (Def1 FALSE)
  else if decide (name = "NOT") then Some (Def1 NOT)
  else if decide (name = "AND") then Some (Def2 AND)
  else if decide (name = "OR") then Some (Def2 OR)
  else if decide (name = "MOVE") then Some (Def2 MOVE)
  else if decide (name = "EXCHANGE") then Some (Def2 EXCHANGE)
  else None.

(** [__all__ = list(STANDARD_GATES.keys()) + [...]].  The keys come in the
    order in which the dictionary enumerates them, which is not the order
    of a Python dictionary; nothing below depends on it. *)
Definition __all__ : list string :=
  (map_to_list STANDARD_GATES).*1
  ++ ["WAIT"; "RESET"; "NOP"; "HALT"; "MEASURE"; "TRUE"; "FALSE"; "NOT";
      "AND"; "OR"; "MOVE"; "EXCHANGE"; "Gate"].

End gates.
End gates.

(** ** The two monads the constructors are read in *)

(** Exceptions: a computation raises [e : E] or returns a value. *)
Definition exc (E A : Type) : Type := E + A.

#[export] Instance exc_ret {E} : MRet (exc E) := λ A a, inr a.
#[export] Instance exc_bind {E} : MBind (exc E) :=
  λ A B f m, match m with inl e => inl e | inr a => f a end.

(** Exceptions over a program state [W]: a computation run in a state
    raises or returns, and leaves a state behind either way. *)
Definition stexc (W E A : Type) : Type := W → (E + A) * W.

#[export] Instance stexc_ret {W E} : MRet (stexc W E) := λ A a w, (inr a, w).
#[export] Instance stexc_bind {W E} : MBind (stexc W E) :=
  λ A B f m w,
    match m w with
    | (inl e, w') => (inl e, w')
    | (inr a, w') => f a w'
    end.

(** ** Calls into the module *)

Section calls.
Import python quilbase.
Context {obj Qubit Addr : Type}.
Context {M : Type → Type} {M_bind : MBind M} {M_ret : MRet M}.
Context (unpack_qubit : pyval obj → M Qubit).
Context (unpack_classical_reg : pyval obj → M Addr).

(** The call of the module's function [name] on the positional arguments
    [args]; [None] when the module has no such function or the arguments do
    not fit its parameter list. *)
Definition invoke (name : string) (args : list (pyval obj))
    : option (M (AbstractInstruction obj Qubit Addr)) :=
  f ← gates.toplevel unpack_qubit unpack_classical_reg name; call f args.

(** The call through the registry, [STANDARD_GATES[name](args)]. *)
Definition dispatch (name : string) (args : list (pyval obj))
    : option (M (AbstractInstruction obj Qubit Addr)) :=
  f ← gates.STANDARD_GATES (Addr := Addr) unpack_qubit !! name; call f args.

(** What the specification says a gate constructor does: normalize the
    qubit operands in argument order, keep the angles as they are, and build
    the gate under its mnemonic. *)
Definition spec_gate (name : string) (angles qubits : list (pyval obj))
    : M (AbstractInstruction obj Qubit Addr) :=
  qs ← mapM unpack_qubit qubits; mret (Gate name angles qs).

End calls.

(** The fixed catalog of the specification: mnemonic, qubit-arity and
    parameter-arity.  A constructor takes its angle first and its qubits
    after it. *)
Definition catalog : list (string * (nat * nat)) :=
  [("I", (1, 0)); ("X", (1, 0)); ("Y", (1, 0)); ("Z", (1, 0)); ("H", (1, 0));
   ("S", (1, 0)); ("T", (1, 0)); ("RX", (1, 1)); ("RY", (1, 1)); ("RZ", (1, 1));
   ("PHASE", (1, 1)); ("CZ", (2, 0)); ("CNOT", (2, 0)); ("CCNOT", (3, 0));
   ("CPHASE00", (2, 1)); ("CPHASE01", (2, 1)); ("CPHASE10", (2, 1));
   ("CPHASE", (2, 1)); ("SWAP", (2, 0)); ("CSWAP", (3, 0)); ("ISWAP", (2, 0));
   ("PSWAP", (2, 1))].

(** The constructors of the classical instructions, by number of register
    operands. *)
Definition unary_classical : list string := ["TRUE"; "FALSE"; "NOT"].
Definition binary_classical : list string := ["AND"; "OR"; "MOVE"; "EXCHANGE"].

(** A normalizer accepts an operand when it returns, and rejects it when it
    raises. *)
Definition accepts {V E A} (f : V → exc E A) (v : V) : Prop :=
  ∃ a, f v = inr a.
Definition rejects {V E A} (f : V → exc E A) (v : V) (e : E) : Prop :=
  f v = inl e.

(** ** A concrete instance

    The objects are the Python integers; a designator is accepted when it is
    a non-negative integer, and a rejection records the offending value. *)
Module sample.
Import python quilbase.

Inductive InvalidOperand : Type :=
| BadQubit (v : pyval Z)
| BadRegister (v : pyval Z).

Definition unpack_qubit (v : pyval Z) : exc InvalidOperand nat :=
  match v with
  | PyObj z => if (0 <=? z)%Z then inr (Z.to_nat z) else inl (BadQubit v)
  | PyNone => inl (BadQubit v)
  end.

Definition unpack_classical_reg (v : pyval Z) : exc InvalidOperand nat :=
  match v with
  | PyObj z => if (0 <=? z)%Z then inr (Z.to_nat z) else inl (BadRegister v)
  | PyNone => inl (BadRegister v)
  end.

Definition int (z : Z) : pyval Z := PyObj z.

(** The designator of a canonical qubit: its index. *)
Definition pack (q : nat) : pyval Z := PyObj (Z.of_nat q).

End sample.

(** ** The normalizer calls of a run *)

(** A call of a normalizer: which one, and on what value. *)
Inductive event (obj : Type) : Type :=
| QubitCall (v : python.pyval obj)
| RegisterCall (v : python.pyval obj).
Arguments QubitCall {obj} v.
Arguments RegisterCall {obj} v.

(** The normalizer [f] made to record each of its calls at the end of a log
    before it answers as [f] does. *)
Definition traced {obj E A} (ev : python.pyval obj → event obj)
    (f : python.pyval obj → exc E A) (v : python.pyval obj)
    : stexc (list (event obj)) E A :=
  λ log, (f v, log ++ [ev v]).

(** The operands of [l] that are handed to the normalizer [f] when they are
    normalized from left to right until one is rejected: all of them up to
    and including the first rejected one. *)
Fixpoint attempted {V E A} (f : V → exc E A) (l : list V) : list V :=
  match l with
  | [] => []
  | x :: l => x :: match f x with inl _ => [] | inr _ => attempted f l end
  end.

(** ** What the docstrings announce *)

(** The class named by the [:returns:] line of a constructor's docstring:
    [A Gate object] for the gates ([CSWAP]'s docstring has no such line),
    [A Measurement instance] for [MEASURE], and so on. *)
Definition docstring_returns (name : string) : option quilbase.variant :=
  if decide (name = "CSWAP") then None
  else if decide (name ∈ catalog.*1) then Some quilbase.VGate
  else if decide (name = "MEASURE") then Some quilbase.VMeasurement
  else if decide (name = "TRUE") then Some quilbase.VClassicalTrue
  else if decide (name = "FALSE") then Some quilbase.VClassicalFalse
  else if decide (name = "NOT") then Some quilbase.VClassicalNot
  else if decide (name = "AND") then Some quilbase.VClassicalAnd
  else if decide (name = "OR") then Some quilbase.VClassicalOr
  else if decide (name = "MOVE") then Some quilbase.VClassicalMove
  else if decide (name = "EXCHANGE") then Some quilbase.VClassicalExchange
  else None.

(** The name of the constructor that builds instructions of this shape;
    the four instructions without operands are built by none. *)
Definition made_by {obj Qubit Addr}
    (i : quilbase.AbstractInstruction obj Qubit Addr) : option string :=
  match i with
  | quilbase.Gate name _ _ => Some name
  | quilbase.Measurement _ _ => Some "MEASURE"
  | quilbase.ClassicalTrue _ => Some "TRUE"
  | quilbase.ClassicalFalse _ => Some "FALSE"
  | quilbase.ClassicalNot _ => Some "NOT"
  | quilbase.ClassicalAnd _ _ => Some "AND"
  | quilbase.ClassicalOr _ _ => Some "OR"
  | quilbase.ClassicalMove _ _ => Some "MOVE"
  | quilbase.ClassicalExchange _ _ => Some "EXCHANGE"
  | _ => None
  end.

(** * Properties *)

(** ** Lists of operands under the exception monad *)

Section mapM_exc.
Context {V E A : Type} (f : V → exc E A).

Lemma mapM_exc_nil : mapM f [] = inr [].
Proof. reflexivity. Qed.

Lemma mapM_exc_cons x l :
  mapM f (x :: l) =
  match f x with
  | inl e => inl e
  | inr y => match mapM f l with inl e => inl e | inr k => inr (y :: k) end
  end.
Proof. simpl. unfold mbind, exc_bind, mret, exc_ret. by destruct (f x). Qed.

(** Every operand accepted: the results, in the order of the operands. *)
Lemma mapM_exc_accept l k :
  Forall2 (λ x y, f x = inr y) l k → mapM f l = inr k.
Proof.
  induction 1 as [|x y l k Hx _ IH]; [done|].
  by rewrite mapM_exc_cons, Hx, IH.
Qed.

Lemma mapM_exc_accept_inv l k :
  mapM f l = inr k → Forall2 (λ x y, f x = inr y) l k.
Proof.
  revert k. induction l as [|x l IH]; intros k; rewrite ?mapM_exc_cons.
  - intros [= <-]. constructor.
  - destruct (f x) as [e|y] eqn:Hx; [done|].
    destruct (mapM f l) as [e|k'] eqn:Hl; [done|].
    intros [= <-]. constructor; auto.
Qed.

Lemma accepts_all l :
  Forall (accepts f) l → ∃ k, Forall2 (λ x y, f x = inr y) l k.
Proof.
  induction 1 as [|x l [y Hy] _ [k Hk]]; [by exists []|].
  exists (y :: k). by constructor.
Qed.

(** The first rejected operand ends the normalization with its error. *)
Lemma mapM_exc_reject pre bad post e :
  Forall (accepts f) pre → f bad = inl e →
  mapM f (pre ++ bad :: post) = inl e.
Proof.
  intros Hpre Hbad. induction Hpre as [|x pre [y Hy] _ IH]; simpl app.
  - by rewrite mapM_exc_cons, Hbad.
  - by rewrite mapM_exc_cons, Hy, IH.
Qed.

(** An error of the normalization is the error of one of the operands, and
    all the operands before it were accepted. *)
Lemma mapM_exc_reject_inv l e :
  mapM f l = inl e →
  ∃ pre bad post, l = pre ++ bad :: post ∧ Forall (accepts f) pre ∧ f bad = inl e.
Proof.
  induction l as [|x l IH]; [done|]. rewrite mapM_exc_cons.
  destruct (f x) as [e'|y] eqn:Hx.
  - intros [= ->]. by exists [], x, l.
  - destruct (mapM f l) as [e'|k] eqn:Hl; [|done].
    intros [= ->]. destruct IH as (pre & bad & post & -> & Hpre & Hbad); [done|].
    exists (x :: pre), bad, post. split_and!; [done| |done].
    constructor; [by exists y|done].
Qed.

End mapM_exc.

(** ** The constructors under the exception monad *)

(** Unfold the calls of a goal and rewrite with what is known of the
    normalizers. *)
Ltac exc_simpl :=
  unfold invoke, spec_gate; simpl;
  unfold gates.I, gates.X, gates.Y, gates.Z, gates.H, gates.S, gates.T,
    gates.RX, gates.RY, gates.RZ, gates.PHASE, gates.MEASURE, gates.TRUE,
    gates.FALSE, gates.NOT, gates.AND, gates.OR, gates.MOVE, gates.EXCHANGE,
    gates.CZ, gates.CNOT, gates.CCNOT, gates.CPHASE00, gates.CPHASE01,
    gates.CPHASE10, gates.CPHASE, gates.SWAP, gates.CSWAP, gates.ISWAP,
    gates.PSWAP;
  rewrite ?mapM_exc_cons, ?mapM_exc_nil;
  repeat (unfold mbind, exc_bind, mret, exc_ret; simpl;
          match goal with
          | H : ?f ?x = _ |- context [?f ?x] => rewrite H
          end);
  unfold mbind, exc_bind, mret, exc_ret; simpl.

(** Case analysis on the membership of a literal list. *)
Ltac elem_cases H :=
  repeat (apply elem_of_cons in H as [H|H]; [simplify_eq|]);
  try (by apply elem_of_nil in H).

(** Case analysis on a list of known length. *)
Ltac length_cases l :=
  repeat (destruct l as [|? l]; try discriminate).

Section exceptions.
Import python quilbase.
Context {obj Qubit Addr Exn : Type}.
Context (unpack_qubit : pyval obj → exc Exn Qubit).
Context (unpack_classical_reg : pyval obj → exc Exn Addr).

Local Abbreviation value := (pyval obj).
Local Abbreviation instr := (AbstractInstruction obj Qubit Addr).
Local Abbreviation invoke' := (invoke unpack_qubit unpack_classical_reg).

(** Every constructor of the catalog is bound under its mnemonic, and
    behaves as the specification's generic gate constructor. *)
Lemma invoke_gate name nq np angles qubits :
  (name, (nq, np)) ∈ catalog → length angles = np → length qubits = nq →
  invoke' name (angles ++ qubits)
  = Some (spec_gate (Addr := Addr) unpack_qubit name angles qubits).
Proof.
  intros Hin Ha Hq. unfold catalog in Hin. elem_cases Hin.
  all: length_cases angles; length_cases qubits.
  all: exc_simpl; f_equal; try reflexivity.
  all: by destruct (unpack_qubit _).
Qed.

Lemma spec_gate_accept name angles qubits qs :
  Forall2 (λ x y, unpack_qubit x = inr y) qubits qs →
  spec_gate (Addr := Addr) unpack_qubit name angles qubits
  = inr (Gate name angles qs).
Proof.
  intros Hqs. unfold spec_gate. by rewrite (mapM_exc_accept _ _ _ Hqs).
Qed.

Lemma spec_gate_reject name angles pre bad post e :
  Forall (accepts unpack_qubit) pre → unpack_qubit bad = inl e →
  spec_gate (Addr := Addr) unpack_qubit name angles (pre ++ bad :: post) = inl e.
Proof.
  intros Hpre Hbad. unfold spec_gate.
  by rewrite (mapM_exc_reject _ _ _ _ _ Hpre Hbad).
Qed.

(** C1: a constructor of the catalog, called on operands the qubit
    normalizer accepts, returns a [Gate] whose name is the mnemonic, with as
    many qubits as the catalogued qubit-arity and as many parameters as the
    catalogued parameter-arity. *)
Theorem catalog_gate_shape name nq np angles qubits :
  (name, (nq, np)) ∈ catalog →
  length angles = np → length qubits = nq →
  Forall (accepts unpack_qubit) qubits →
  ∃ ps qs,
    invoke' name (angles ++ qubits) = Some (inr (Gate name ps qs))
    ∧ length qs = nq ∧ length ps = np.
Proof.
  intros Hin Ha Hq Hacc.
  destruct (accepts_all _ _ Hacc) as [qs Hqs].
  exists angles, qs. split_and!; [|by rewrite <-(Forall2_length _ _ _ Hqs)|done].
  by rewrite (invoke_gate _ _ _ _ _ Hin Ha Hq), (spec_gate_accept _ _ _ _ Hqs).
Qed.

(** C3: [MEASURE(q)] returns a measurement without address, [MEASURE(q, r)]
    with a register [r] returns one whose address is the register
    normalizer's result on [r]; the qubit is the qubit normalizer's result on
    [q] in both, and with the register absent the call is the same whatever
    the register normalizer is, so that normalizer is not applied. *)
Theorem measure_address (q : value) (q' : Qubit) :
  unpack_qubit q = inr q' →
  invoke' "MEASURE" [q] = Some (inr (Measurement q' None))
  ∧ (∀ r a, is_None r = false → unpack_classical_reg r = inr a →
       invoke' "MEASURE" [q; r] = Some (inr (Measurement q' (Some a))))
  ∧ (∀ other : value → exc Exn Addr,
       gates.MEASURE unpack_qubit other q PyNone
       = gates.MEASURE unpack_qubit unpack_classical_reg q PyNone).
Proof.
  intros Hq. split_and!.
  - by exc_simpl.
  - intros r a Hr Ha. by exc_simpl.
  - intros other. by exc_simpl.
Qed.

(** C4: the operands keep their order.  The qubits of a gate are the
    normalized qubit arguments, position by position, and the two fields of
    [AND], [OR], [MOVE] and [EXCHANGE] are the normalized first and second
    argument. *)
Theorem operand_order :
  (∀ name nq np angles qubits qs,
     (name, (nq, np)) ∈ catalog →
     length angles = np → length qubits = nq →
     Forall2 (λ x y, unpack_qubit x = inr y) qubits qs →
     ∃ ps, invoke' name (angles ++ qubits) = Some (inr (Gate name ps qs)))
  ∧ (∀ a b a' b',
       unpack_classical_reg a = inr a' → unpack_classical_reg b = inr b' →
       invoke' "AND" [a; b] = Some (inr (ClassicalAnd a' b'))
       ∧ invoke' "OR" [a; b] = Some (inr (ClassicalOr a' b'))
       ∧ invoke' "MOVE" [a; b] = Some (inr (ClassicalMove a' b'))
       ∧ invoke' "EXCHANGE" [a; b] = Some (inr (ClassicalExchange a' b'))).
Proof.
  split.
  - intros name nq np angles qubits qs Hin Ha Hq Hqs. exists angles.
    by rewrite (invoke_gate _ _ _ _ _ Hin Ha Hq), (spec_gate_accept _ _ _ _ Hqs).
  - intros a b a' b' Ha Hb. split_and!; by exc_simpl.
Qed.

(** C5: a parameterized gate constructor stores its angle as it is.  For
    every value [v], and whenever the qubits are accepted, the parameters of
    the gate are [[v]]. *)
Theorem angle_unchanged (v : value) :
  (∀ q q', unpack_qubit q = inr q' →
     gates.RX (Addr := Addr) unpack_qubit v q = inr (Gate "RX" [v] [q'])
     ∧ gates.RY (Addr := Addr) unpack_qubit v q = inr (Gate "RY" [v] [q'])
     ∧ gates.RZ (Addr := Addr) unpack_qubit v q = inr (Gate "RZ" [v] [q'])
     ∧ gates.PHASE (Addr := Addr) unpack_qubit v q
       = inr (Gate "PHASE" [v] [q']))
  ∧ (∀ c t c' t', unpack_qubit c = inr c' → unpack_qubit t = inr t' →
       gates.CPHASE00 (Addr := Addr) unpack_qubit v c t
       = inr (Gate "CPHASE00" [v] [c'; t'])
       ∧ gates.CPHASE01 (Addr := Addr) unpack_qubit v c t
         = inr (Gate "CPHASE01" [v] [c'; t'])
       ∧ gates.CPHASE10 (Addr := Addr) unpack_qubit v c t
         = inr (Gate "CPHASE10" [v] [c'; t'])
       ∧ gates.CPHASE (Addr := Addr) unpack_qubit v c t
         = inr (Gate "CPHASE" [v] [c'; t'])
       ∧ gates.PSWAP (Addr := Addr) unpack_qubit v c t
         = inr (Gate "PSWAP" [v] [c'; t'])).
Proof.
  split.
  - intros q q' Hq. split_and!; by exc_simpl.
  - intros c t c' t' Hc Ht. split_and!; by exc_simpl.
Qed.

(** The functions of the module: the constructors of the catalog,
    [MEASURE], and the constructors of the classical instructions. *)
Lemma toplevel_names name :
  is_Some (gates.toplevel unpack_qubit unpack_classical_reg name)
  ↔ name ∈ catalog.*1 ++ ["MEASURE"] ++ unary_classical ++ binary_classical.
Proof.
  split.
  - unfold gates.toplevel. repeat case_decide; simplify_eq.
    all: try (intros _; unfold catalog; simpl; by repeat constructor).
    by intros [? ?].
  - intros Hin. unfold catalog, unary_classical, binary_classical in Hin.
    simpl in Hin. elem_cases Hin. all: by eexists.
Qed.

(** An error of a call is an error of a normalizer on one of the
    arguments. *)
Lemma invoke_error_origin name args e :
  invoke' name args = Some (inl e) →
  ∃ v, v ∈ args ∧ (unpack_qubit v = inl e ∨ unpack_classical_reg v = inl e).
Proof.
  unfold invoke, gates.toplevel. repeat case_decide; simplify_eq; simpl.
  all: try done.
  all: destruct args as [|a [|b [|c [|d args]]]]; simpl; try done.
  all: intros [= He]; revert He; exc_simpl.
  all: repeat
    match goal with
    | |- context [unpack_qubit ?x] =>
        let Hx := fresh "Hx" in destruct (unpack_qubit x) eqn:Hx; simpl
    | |- context [unpack_classical_reg ?x] =>
        let Hx := fresh "Hx" in destruct (unpack_classical_reg x) eqn:Hx; simpl
    | |- context [is_None ?x] => destruct (is_None x); simpl
    end.
  all: try done.
  all: intros [= <-]; eexists; split; [|eauto]; set_solver.
Qed.

(** C6: a rejected operand makes the call fail with the normalizer's error.
    The error is the one of the first rejected operand, which ends the call;
    the call then returns no instruction; and a call raises no error other
    than one of a normalizer on one of its arguments. *)
Theorem rejection_propagates :
  (∀ name nq np angles pre bad post e,
     (name, (nq, np)) ∈ catalog →
     length angles = np → length (pre ++ bad :: post) = nq →
     Forall (accepts unpack_qubit) pre → rejects unpack_qubit bad e →
     invoke' name (angles ++ pre ++ bad :: post) = Some (inl e))
  ∧ (∀ q e, rejects unpack_qubit q e →
       invoke' "MEASURE" [q] = Some (inl e)
       ∧ ∀ r, invoke' "MEASURE" [q; r] = Some (inl e))
  ∧ (∀ q r e,
       accepts unpack_qubit q → is_None r = false →
       rejects unpack_classical_reg r e →
       invoke' "MEASURE" [q; r] = Some (inl e))
  ∧ (∀ name r e,
       name ∈ unary_classical → rejects unpack_classical_reg r e →
       invoke' name [r] = Some (inl e))
  ∧ (∀ name pre bad post e,
       name ∈ binary_classical → length (pre ++ bad :: post) = 2 →
       Forall (accepts unpack_classical_reg) pre →
       rejects unpack_classical_reg bad e →
       invoke' name (pre ++ bad :: post) = Some (inl e))
  ∧ (∀ name args e,
       invoke' name args = Some (inl e) →
       ∃ v, v ∈ args
            ∧ (rejects unpack_qubit v e ∨ rejects unpack_classical_reg v e)).
Proof.
  unfold rejects. split_and!.
  - intros name nq np angles pre bad post e Hin Ha Hq Hpre Hbad.
    by rewrite (invoke_gate _ _ _ _ _ Hin Ha Hq),
      (spec_gate_reject _ _ _ _ _ _ Hpre Hbad).
  - intros q e Hq. split; [|intros r]; by exc_simpl.
  - intros q r e [q' Hq] Hr He. by exc_simpl.
  - intros name r e Hin He. unfold unary_classical in Hin. elem_cases Hin.
    all: by exc_simpl.
  - intros name pre bad post e Hin Hlen Hpre He.
    assert ((pre = [] ∧ ∃ b, post = [b])
            ∨ (∃ a a', pre = [a] ∧ post = []
                       ∧ unpack_classical_reg a = inr a')) as Hshape.
    { destruct pre as [|a [|b pre]]; simpl in Hlen.
      - left. split; [done|].
        destruct post as [|b [|c post]]; simplify_eq/=. by exists b.
      - right. apply Forall_cons_1 in Hpre as [[a' Ha] _].
        exists a, a'. by destruct post; simplify_eq/=.
      - rewrite length_app in Hlen. simpl in Hlen. lia. }
    unfold binary_classical in Hin.
    destruct Hshape as [[-> [b ->]]|(a & a' & -> & -> & Ha)]; simpl.
    all: elem_cases Hin; by exc_simpl.
  - apply invoke_error_origin.
Qed.

(** C9: no constructor refuses a repeated operand.  With the same accepted
    designator in every position a gate constructor returns the gate with
    the normalized designator in every position, and so do [AND], [OR],
    [MOVE] and [EXCHANGE] with a repeated register. *)
Theorem aliased_operands :
  (∀ name nq np angles q q',
     (name, (nq, np)) ∈ catalog → length angles = np →
     unpack_qubit q = inr q' →
     invoke' name (angles ++ replicate nq q)
     = Some (inr (Gate name angles (replicate nq q'))))
  ∧ (∀ r a,
       unpack_classical_reg r = inr a →
       invoke' "AND" [r; r] = Some (inr (ClassicalAnd a a))
       ∧ invoke' "OR" [r; r] = Some (inr (ClassicalOr a a))
       ∧ invoke' "MOVE" [r; r] = Some (inr (ClassicalMove a a))
       ∧ invoke' "EXCHANGE" [r; r] = Some (inr (ClassicalExchange a a))).
Proof.
  split.
  - intros name nq np angles q q' Hin Ha Hq.
    rewrite (invoke_gate _ _ _ _ _ Hin Ha (length_replicate _ _)).
    f_equal. apply spec_gate_accept.
    clear Hin. induction nq; simpl; by constructor.
  - intros r a Hr. split_and!; by exc_simpl.
Qed.

End exceptions.

(** ** The registry *)

Section registry.
Import python quilbase.
Context {obj Qubit Addr : Type}.
Context {M : Type → Type} {M_bind : MBind M} {M_ret : MRet M}.
Context (unpack_qubit : pyval obj → M Qubit).
Context (unpack_classical_reg : pyval obj → M Addr).

Local Abbreviation registry := (gates.STANDARD_GATES (Addr := Addr) unpack_qubit).
Local Abbreviation toplevel' :=
  (gates.toplevel unpack_qubit unpack_classical_reg).

Lemma registry_lookup name :
  name ∈ catalog.*1 → is_Some (registry !! name) ∧ registry !! name = toplevel' name.
Proof.
  intros Hin. unfold catalog in Hin. simpl in Hin. elem_cases Hin.
  all: split; [eexists|]; reflexivity.
Qed.

Lemma registry_keys : dom registry = list_to_set catalog.*1.
Proof. vm_compute. reflexivity. Qed.

(** C2: the keys of [STANDARD_GATES] are the 22 mnemonics of the catalog,
    and under each of them the registry holds the function of that name, so a
    call through the registry is the direct call on the same arguments:
    the same computation, hence the same instruction or the same failure. *)
Theorem registry_dispatch :
  dom registry = list_to_set catalog.*1
  ∧ size (dom registry) = 22
  ∧ ∀ name, name ∈ catalog.*1 →
      ∃ f, registry !! name = Some f
           ∧ toplevel' name = Some f
           ∧ ∀ args,
               dispatch unpack_qubit name args
               = invoke unpack_qubit unpack_classical_reg name args.
Proof.
  split; [apply registry_keys|]. split; [by vm_compute|].
  intros name Hin. destruct (registry_lookup name Hin) as [[f Hf] Heq].
  exists f. split_and!; [done|by rewrite <-Heq|].
  intros args. unfold dispatch, invoke. by rewrite Heq.
Qed.

End registry.

(** ** The four constants *)

Section singletons.
Import python quilbase.
Context {obj Qubit Addr : Type}.

Local Abbreviation instr := (AbstractInstruction obj Qubit Addr).

(** C10: [WAIT], [RESET], [NOP] and [HALT] are values of the four variants
    [Wait], [Reset], [Nop] and [Halt]; the variants differ, and so no two of
    the constants are equal. *)
Theorem singletons_distinct :
  variant_of (gates.WAIT : instr) = VWait
  ∧ variant_of (gates.RESET : instr) = VReset
  ∧ variant_of (gates.NOP : instr) = VNop
  ∧ variant_of (gates.HALT : instr) = VHalt
  ∧ NoDup [VWait; VReset; VNop; VHalt]
  ∧ NoDup [gates.WAIT : instr; gates.RESET; gates.NOP; gates.HALT].
Proof.
  split_and!; try reflexivity.
  - repeat (apply NoDup_cons; split;
            [rewrite ?elem_of_cons, elem_of_nil; intuition discriminate|]).
    apply NoDup_nil_2.
  - unfold gates.WAIT, gates.RESET, gates.NOP, gates.HALT.
    repeat (apply NoDup_cons; split;
            [rewrite ?elem_of_cons, elem_of_nil; intuition discriminate|]).
    apply NoDup_nil_2.
Qed.

End singletons.

(** ** The theorems at the concrete instance *)

Section witnesses.
Import python quilbase sample.

Local Abbreviation run := (invoke unpack_qubit unpack_classical_reg).

(** The examples of the specification. *)
Example CNOT_0_1 : run "CNOT" [int 0; int 1] = Some (inr (Gate "CNOT" [] [0; 1])).
Proof. reflexivity. Qed.

Example CSWAP_0_1_2 :
  run "CSWAP" [int 0; int 1; int 2] = Some (inr (Gate "CSWAP" [] [0; 1; 2])).
Proof. reflexivity. Qed.

Example RX_angle_2 (angle : pyval Z) :
  run "RX" [angle; int 2] = Some (inr (Gate "RX" [angle] [2])).
Proof. reflexivity. Qed.

(** A negative index is rejected, and the first of two rejections is the one
    the caller sees. *)
Example CNOT_rejected :
  run "CNOT" [int (-1); int (-2)] = Some (inl (BadQubit (int (-1)))).
Proof. reflexivity. Qed.

(** A call with the wrong number of arguments does not reach the module. *)
Example CNOT_one_argument : run "CNOT" [int 0] = None.
Proof. reflexivity. Qed.

Lemma catalog_gate_shape_witness :
  ("CNOT", (2, 0)) ∈ catalog
  ∧ Forall (accepts unpack_qubit) [int 0; int 1]
  ∧ ∃ ps qs,
      run "CNOT" ([] ++ [int 0; int 1]) = Some (inr (Gate "CNOT" ps qs))
      ∧ length qs = 2 ∧ length ps = 0.
Proof.
  assert (("CNOT", (2, 0)) ∈ catalog) as Hin by (unfold catalog; repeat constructor).
  assert (Forall (accepts unpack_qubit) [int 0; int 1]) as Hacc
    by (repeat constructor; eexists; reflexivity).
  split_and!; [done|done|].
  exact (catalog_gate_shape unpack_qubit unpack_classical_reg
           "CNOT" 2 0 [] [int 0; int 1] Hin eq_refl eq_refl Hacc).
Defined.

Lemma measure_address_witness :
  unpack_qubit (int 3) = inr 3
  ∧ run "MEASURE" [int 3] = Some (inr (Measurement 3 None))
  ∧ run "MEASURE" [int 3; int 5] = Some (inr (Measurement 3 (Some 5))).
Proof.
  destruct (measure_address unpack_qubit unpack_classical_reg
              (int 3) 3 eq_refl) as (H1 & H2 & _).
  split_and!; [reflexivity|exact H1|exact (H2 (int 5) 5 eq_refl eq_refl)].
Defined.

Lemma operand_order_witness :
  ("CSWAP", (3, 0)) ∈ catalog
  ∧ Forall2 (λ x y, unpack_qubit x = inr y) [int 0; int 1; int 2] [0; 1; 2]
  ∧ (∃ ps, run "CSWAP" ([] ++ [int 0; int 1; int 2])
           = Some (inr (Gate "CSWAP" ps [0; 1; 2])))
  ∧ run "MOVE" [int 4; int 7] = Some (inr (ClassicalMove 4 7)).
Proof.
  assert (("CSWAP", (3, 0)) ∈ catalog) as Hin by (unfold catalog; repeat constructor).
  assert (Forall2 (λ x y, unpack_qubit x = inr y)
            [int 0; int 1; int 2] [0; 1; 2]) as Hqs by (repeat constructor).
  destruct (operand_order unpack_qubit unpack_classical_reg) as [Hg Hc].
  split_and!; [done|done|..].
  - exact (Hg "CSWAP" 3 0 [] [int 0; int 1; int 2] [0; 1; 2]
             Hin eq_refl eq_refl Hqs).
  - exact (proj1 (proj2 (proj2 (Hc (int 4) (int 7) 4 7 eq_refl eq_refl)))).
Defined.

Lemma angle_unchanged_witness :
  unpack_qubit (int 2) = inr 2
  ∧ gates.RX (Addr := nat) unpack_qubit PyNone (int 2)
    = inr (Gate "RX" [PyNone] [2])
  ∧ gates.PSWAP (Addr := nat) unpack_qubit (int (-7)) (int 2) (int 2)
    = inr (Gate "PSWAP" [int (-7)] [2; 2]).
Proof.
  split_and!; [reflexivity|..].
  - exact (proj1 (proj1 (angle_unchanged (Addr := nat) unpack_qubit PyNone)
                    (int 2) 2 eq_refl)).
  - pose proof (proj2 (angle_unchanged (Addr := nat) unpack_qubit (int (-7)))
                  (int 2) (int 2) 2 2 eq_refl eq_refl) as H.
    exact (proj2 (proj2 (proj2 (proj2 H)))).
Defined.

Lemma rejection_propagates_witness :
  ("CCNOT", (3, 0)) ∈ catalog
  ∧ Forall (accepts unpack_qubit) [int 0]
  ∧ rejects unpack_qubit (int (-1)) (BadQubit (int (-1)))
  ∧ run "CCNOT" ([] ++ [int 0] ++ int (-1) :: [int (-2)])
    = Some (inl (BadQubit (int (-1))))
  ∧ rejects unpack_classical_reg (int (-4)) (BadRegister (int (-4)))
  ∧ run "MEASURE" [int 0; int (-4)] = Some (inl (BadRegister (int (-4)))).
Proof.
  assert (("CCNOT", (3, 0)) ∈ catalog) as Hin by (unfold catalog; repeat constructor).
  assert (Forall (accepts unpack_qubit) [int 0]) as Hacc
    by (repeat constructor; eexists; reflexivity).
  destruct (rejection_propagates unpack_qubit unpack_classical_reg)
    as (Hg & _ & Hm & _).
  split_and!; [done|done|reflexivity| |reflexivity|].
  - exact (Hg "CCNOT" 3 0 [] [int 0] (int (-1)) [int (-2)] _
             Hin eq_refl eq_refl Hacc eq_refl).
  - refine (Hm (int 0) (int (-4)) _ _ eq_refl eq_refl).
    by exists 0.
Defined.

Lemma aliased_operands_witness :
  ("CSWAP", (3, 0)) ∈ catalog
  ∧ unpack_qubit (int 6) = inr 6
  ∧ run "CSWAP" ([] ++ replicate 3 (int 6))
    = Some (inr (Gate "CSWAP" [] (replicate 3 6)))
  ∧ run "EXCHANGE" [int 6; int 6] = Some (inr (ClassicalExchange 6 6)).
Proof.
  assert (("CSWAP", (3, 0)) ∈ catalog) as Hin by (unfold catalog; repeat constructor).
  destruct (aliased_operands unpack_qubit unpack_classical_reg) as [Hg Hc].
  split_and!; [done|reflexivity|..].
  - exact (Hg "CSWAP" 3 0 [] (int 6) 6 Hin eq_refl eq_refl).
  - exact (proj2 (proj2 (proj2 (Hc (int 6) 6 eq_refl)))).
Defined.

Lemma registry_dispatch_witness :
  "PHASE" ∈ catalog.*1
  ∧ dispatch (Addr := nat) unpack_qubit "PHASE" [int 1; int 0]
    = run "PHASE" [int 1; int 0]
  ∧ dispatch (Addr := nat) unpack_qubit "PHASE" [int 1]
    = run "PHASE" [int 1].
Proof.
  assert ("PHASE" ∈ catalog.*1) as Hin by (unfold catalog; simpl; repeat constructor).
  destruct (proj2 (proj2 (registry_dispatch unpack_qubit unpack_classical_reg))
              "PHASE" Hin) as (f & _ & _ & Hf).
  split_and!; [done|apply Hf|apply Hf].
Defined.

End witnesses.

(** * Further properties of the module *)

(** ** Parameter lists *)

Section arity.
Import python quilbase.
Context {obj Qubit Addr : Type}.
Context {M : Type → Type} {M_bind : MBind M} {M_ret : MRet M}.
Context (unpack_qubit : pyval obj → M Qubit).
Context (unpack_classical_reg : pyval obj → M Addr).

Local Abbreviation invoke' := (invoke unpack_qubit unpack_classical_reg).

(** The names the module binds to functions, whatever the monad. *)
Lemma toplevel_bound name :
  is_Some (gates.toplevel unpack_qubit unpack_classical_reg name)
  ↔ name ∈ catalog.*1 ++ ["MEASURE"] ++ unary_classical ++ binary_classical.
Proof.
  split.
  - unfold gates.toplevel. repeat case_decide; simplify_eq.
    all: try (intros _; unfold catalog; simpl; by repeat constructor).
    by intros [? ?].
  - intros Hin. unfold catalog, unary_classical, binary_classical in Hin.
    simpl in Hin. elem_cases Hin. all: by eexists.
Qed.

(** In a call that passes its arguments by position only, the body of a
    constructor runs exactly when there are as many arguments as the function
    has parameters: qubit-arity plus parameter-arity for a gate of the
    catalog, one or two for [MEASURE], whose second parameter has a default,
    one for [TRUE], [FALSE], [NOT], two for [AND], [OR], [MOVE],
    [EXCHANGE]. *)
Theorem positional_arity name args :
  (∀ nq np, (name, (nq, np)) ∈ catalog →
     is_Some (invoke' name args) ↔ length args = nq + np)
  ∧ (name = "MEASURE" →
       is_Some (invoke' name args) ↔ length args = 1 ∨ length args = 2)
  ∧ (name ∈ unary_classical →
       is_Some (invoke' name args) ↔ length args = 1)
  ∧ (name ∈ binary_classical →
       is_Some (invoke' name args) ↔ length args = 2).
Proof.
  split_and!.
  - intros nq np Hin. unfold catalog in Hin. elem_cases Hin.
    all: destruct args as [|a [|b [|c [|d args]]]]; unfold invoke; simpl.
    all: split; [intros [? ?]; simplify_eq; lia|intros; try lia; by eexists].
  - intros ->.
    destruct args as [|a [|b [|c args]]]; unfold invoke; simpl.
    all: split; [intros [? ?]; simplify_eq; lia|intros; try lia; by eexists].
  - intros Hin. unfold unary_classical in Hin. elem_cases Hin.
    all: destruct args as [|a [|b args]]; unfold invoke; simpl.
    all: split; [intros [? ?]; simplify_eq; lia|intros; try lia; by eexists].
  - intros Hin. unfold binary_classical in Hin. elem_cases Hin.
    all: destruct args as [|a [|b [|c args]]]; unfold invoke; simpl.
    all: split; [intros [? ?]; simplify_eq; lia|intros; try lia; by eexists].
Qed.

End arity.

(** ** The exported names *)

Section exports.
Import python quilbase.
Context {obj Qubit Addr : Type}.
Context {M : Type → Type} {M_bind : MBind M} {M_ret : MRet M}.
Context (unpack_qubit : pyval obj → M Qubit).
Context (unpack_classical_reg : pyval obj → M Addr).

Local Abbreviation exported := (gates.__all__ (Addr := Addr) unpack_qubit).
Local Abbreviation registry := (gates.STANDARD_GATES (Addr := Addr) unpack_qubit).

Lemma registry_key_list name :
  name ∈ (map_to_list registry).*1 ↔ name ∈ catalog.*1.
Proof.
  rewrite <-(elem_of_list_to_set (C := gset string) name catalog.*1).
  rewrite <-(registry_keys (Addr := Addr) unpack_qubit), elem_of_dom.
  rewrite list_elem_of_fmap. split.
  - intros [[k f] [-> Hkf]]. apply elem_of_map_to_list in Hkf. by exists f.
  - intros [f Hf]. exists (name, f). split; [done|].
    by apply elem_of_map_to_list.
Qed.

(** [__all__] exports every function of the module, and every name it
    exports is bound: to a function of the module, to one of the four
    constants, or to the imported class [Gate].  No name is listed twice,
    and there are 35 of them. *)
Theorem exports_bound :
  (∀ name,
     name ∈ exported
     ↔ is_Some (gates.toplevel unpack_qubit unpack_classical_reg name)
       ∨ name ∈ ["WAIT"; "RESET"; "NOP"; "HALT"; "Gate"])
  ∧ NoDup exported
  ∧ length exported = 35.
Proof.
  split_and!.
  - intros name. unfold gates.__all__.
    rewrite elem_of_app, registry_key_list, toplevel_bound.
    unfold unary_classical, binary_classical.
    rewrite !elem_of_app, !elem_of_cons, !elem_of_nil. tauto.
  - unfold gates.__all__. apply NoDup_app. split_and!.
    + apply NoDup_fst_map_to_list.
    + intros name Hin%registry_key_list Hin'.
      unfold catalog in Hin. simpl in Hin. elem_cases Hin.
      all: revert Hin'; rewrite !elem_of_cons, elem_of_nil.
      all: intuition discriminate.
    + repeat (apply NoDup_cons; split;
              [rewrite ?elem_of_cons, elem_of_nil; intuition discriminate|]).
      apply NoDup_nil_2.
  - unfold gates.__all__.
    rewrite length_app, length_fmap, length_map_to_list.
    rewrite <-size_dom, (registry_keys (Addr := Addr) unpack_qubit). by vm_compute.
Qed.

End exports.

(** ** Success, results and round trips under the exception monad *)

Section results.
Import python quilbase.
Context {obj Qubit Addr Exn : Type}.
Context (unpack_qubit : pyval obj → exc Exn Qubit).
Context (unpack_classical_reg : pyval obj → exc Exn Addr).

Local Abbreviation value := (pyval obj).
Local Abbreviation instr := (AbstractInstruction obj Qubit Addr).
Local Abbreviation invoke' := (invoke unpack_qubit unpack_classical_reg).

Lemma spec_gate_returns name angles qubits (i : instr) :
  spec_gate unpack_qubit name angles qubits = inr i →
  ∃ qs, i = Gate name angles qs
        ∧ Forall2 (λ x y, unpack_qubit x = inr y) qubits qs.
Proof.
  unfold spec_gate.
  destruct (mapM unpack_qubit qubits) as [e|qs] eqn:Hqs; [done|].
  intros [= <-]. exists qs. split; [done|]. by apply mapM_exc_accept_inv.
Qed.

(** A call returns an instruction exactly when every operand is accepted.
    The angles have no part in it, and neither has a register that is
    [None]: [MEASURE(q)] is [MEASURE(q, None)]. *)
Theorem success_iff_accepted :
  (∀ name nq np angles qubits,
     (name, (nq, np)) ∈ catalog →
     length angles = np → length qubits = nq →
     (∃ i, invoke' name (angles ++ qubits) = Some (inr i))
     ↔ Forall (accepts unpack_qubit) qubits)
  ∧ (∀ q r,
       (∃ i, invoke' "MEASURE" [q; r] = Some (inr i))
       ↔ accepts unpack_qubit q
         ∧ (is_None r = true ∨ accepts unpack_classical_reg r))
  ∧ (∀ q, invoke' "MEASURE" [q] = invoke' "MEASURE" [q; PyNone])
  ∧ (∀ name r,
       name ∈ unary_classical →
       (∃ i, invoke' name [r] = Some (inr i))
       ↔ accepts unpack_classical_reg r)
  ∧ (∀ name a b,
       name ∈ binary_classical →
       (∃ i, invoke' name [a; b] = Some (inr i))
       ↔ accepts unpack_classical_reg a ∧ accepts unpack_classical_reg b).
Proof.
  unfold accepts. split_and!.
  - intros name nq np angles qubits Hin Ha Hq.
    rewrite (invoke_gate _ _ _ _ _ _ _ Hin Ha Hq). split.
    + intros [i [= Hi]]. apply spec_gate_returns in Hi as (qs & _ & Hqs).
      clear -Hqs. induction Hqs; constructor; eauto.
    + intros Hacc. destruct (accepts_all _ _ Hacc) as [qs Hqs].
      eexists. by rewrite (spec_gate_accept _ _ _ _ _ Hqs).
  - intros q r. exc_simpl.
    destruct (unpack_qubit q) as [e|q'], (is_None r),
      (unpack_classical_reg r) as [e'|a]; simpl.
    all: split; [intros [i [= Hi]]|intros [[? ?] [?|[? ?]]]];
      simplify_eq; eauto.
  - done.
  - intros name r Hin. unfold unary_classical in Hin. elem_cases Hin.
    all: exc_simpl; destruct (unpack_classical_reg r) as [e|a]; simpl.
    all: split; [intros [i [= Hi]]|intros [? ?]]; simplify_eq; eauto.
  - intros name a b Hin. unfold binary_classical in Hin. elem_cases Hin.
    all: exc_simpl.
    all: destruct (unpack_classical_reg a) as [e|a'],
           (unpack_classical_reg b) as [e'|b']; simpl.
    all: split; [intros [i [= Hi]]|intros [[? ?] [? ?]]]; simplify_eq; eauto.
Qed.

(** The constructor an instruction came from can be read off the
    instruction. *)
Lemma invoke_made_by name args (i : instr) :
  invoke' name args = Some (inr i) → made_by i = Some name.
Proof.
  unfold invoke, gates.toplevel. repeat case_decide; simplify_eq; simpl.
  all: try done.
  all: destruct args as [|a [|b [|c [|d args]]]]; simpl; try done.
  all: intros [= He]; revert He; exc_simpl.
  all: repeat
    match goal with
    | |- context [unpack_qubit ?x] => destruct (unpack_qubit x); simpl
    | |- context [unpack_classical_reg ?x] =>
        destruct (unpack_classical_reg x); simpl
    | |- context [is_None ?x] => destruct (is_None x); simpl
    end.
  all: try done.
  all: by intros [= <-].
Qed.

(** The shape of what a call returns, by the function called. *)
Lemma invoke_shape name args (i : instr) :
  invoke' name args = Some (inr i) →
  match i with
  | Gate n _ _ => n = name ∧ name ∈ catalog.*1
  | Measurement _ _ => name = "MEASURE"
  | ClassicalTrue _ => name = "TRUE"
  | ClassicalFalse _ => name = "FALSE"
  | ClassicalNot _ => name = "NOT"
  | ClassicalAnd _ _ => name = "AND"
  | ClassicalOr _ _ => name = "OR"
  | ClassicalMove _ _ => name = "MOVE"
  | ClassicalExchange _ _ => name = "EXCHANGE"
  | _ => False
  end.
Proof.
  unfold invoke, gates.toplevel. repeat case_decide; simplify_eq; simpl.
  all: try done.
  all: destruct args as [|a [|b [|c [|d args]]]]; simpl; try done.
  all: intros [= He]; revert He; exc_simpl.
  all: repeat
    match goal with
    | |- context [unpack_qubit ?x] => destruct (unpack_qubit x); simpl
    | |- context [unpack_classical_reg ?x] =>
        destruct (unpack_classical_reg x); simpl
    | |- context [is_None ?x] => destruct (is_None x); simpl
    end.
  all: try done.
  all: intros [= <-]; try done.
  all: split; [done|unfold catalog; simpl; by repeat constructor].
Qed.

(** Every constructor returns an instruction of the class its docstring
    announces; [CSWAP], whose docstring announces none, returns a gate like
    every constructor of the catalog; and no constructor returns one of the
    four instructions without operands. *)
Theorem result_class name args (i : instr) :
  invoke' name args = Some (inr i) →
  (∀ v, docstring_returns name = Some v → variant_of i = v)
  ∧ (name ∈ catalog.*1 → variant_of i = VGate)
  ∧ variant_of i ∉ [VWait; VReset; VHalt; VNop].
Proof.
  intros Hi. apply invoke_shape in Hi.
  destruct i; try done; simpl.
  1: destruct Hi as [-> Hin]; unfold catalog in Hin; simpl in Hin;
     elem_cases Hin.
  all: simplify_eq; split_and!.
  all: try (intros v Hv; vm_compute in Hv; by simplify_eq).
  all: try done.
  all: try (rewrite ?elem_of_cons, elem_of_nil; intuition discriminate).
  all: unfold catalog; simpl; intros Hin; by elem_cases Hin.
Qed.

(** A call of a catalog constructor that runs has one argument for each
    parameter, angles first. *)
Lemma catalog_call_split name nq np args m :
  (name, (nq, np)) ∈ catalog → invoke' name args = Some m →
  ∃ angles qubits,
    args = angles ++ qubits ∧ length angles = np ∧ length qubits = nq.
Proof.
  intros Hin Hm. unfold catalog in Hin. elem_cases Hin.
  all: destruct args as [|a [|b [|c [|d args]]]]; try done.
  all: first
    [ by exists [], [a] | by exists [a], [b] | by exists [], [a; b]
    | by exists [a], [b; c] | by exists [], [a; b; c] ].
Qed.

Lemma catalog_arities name :
  name ∈ catalog.*1 → ∃ nq np, (name, (nq, np)) ∈ catalog.
Proof.
  intros Hin. apply list_elem_of_fmap in Hin as [[n [nq np]] [-> Hin]].
  by exists nq, np.
Qed.

(** The gate a catalog constructor returns, in terms of its arguments. *)
Lemma catalog_call_returns name nq np args (i : instr) :
  (name, (nq, np)) ∈ catalog → invoke' name args = Some (inr i) →
  ∃ qs, i = Gate name (take np args) qs ∧ length qs = nq
        ∧ Forall2 (λ x y, unpack_qubit x = inr y) (drop np args) qs.
Proof.
  intros Hin Hi.
  destruct (catalog_call_split _ _ _ _ _ Hin Hi)
    as (angles & qubits & -> & Ha & Hq).
  rewrite (invoke_gate _ _ _ _ _ _ _ Hin Ha Hq) in Hi.
  injection Hi as Hi. apply spec_gate_returns in Hi as (qs & -> & Hqs).
  exists qs. rewrite take_app_length', drop_app_length' by done.
  split_and!; [done| |done]. by rewrite <-(Forall2_length _ _ _ Hqs).
Qed.

(** Two calls that return the same instruction are calls of the same
    constructor, also where the docstrings call two gates the same
    ([PHASE] and [RZ]); and for a gate they were given the same angles. *)
Theorem constructor_injective n1 a1 n2 a2 (i : instr) :
  invoke' n1 a1 = Some (inr i) → invoke' n2 a2 = Some (inr i) →
  n1 = n2
  ∧ ∀ nq np, (n1, (nq, np)) ∈ catalog → take np a1 = take np a2.
Proof.
  intros H1 H2.
  assert (n1 = n2) as <-.
  { apply invoke_made_by in H1, H2. congruence. }
  split; [done|]. intros nq np Hin.
  destruct (catalog_call_returns _ _ _ _ _ Hin H1) as (qs1 & -> & _).
  destruct (catalog_call_returns _ _ _ _ _ Hin H2) as (qs2 & [= ? ?] & _).
  done.
Qed.

(** What is found in the registry under a key builds gates named by that
    key and nothing else, and the registry has no entry for [MEASURE], for
    the classical constructors, for the constants or for [Gate]. *)
Theorem registry_builds_named_gates :
  (∀ key args (i : instr),
     dispatch unpack_qubit key args = Some (inr i) →
     key ∈ catalog.*1 ∧ ∃ ps qs, i = Gate key ps qs)
  ∧ (∀ key args,
       key ∈ ["MEASURE"; "TRUE"; "FALSE"; "NOT"; "AND"; "OR"; "MOVE";
              "EXCHANGE"; "WAIT"; "RESET"; "NOP"; "HALT"; "Gate"] →
       dispatch (Addr := Addr) unpack_qubit key args = None).
Proof using unpack_classical_reg.
  split.
  - intros key args i Hi.
    assert (key ∈ catalog.*1) as Hin.
    { rewrite <-(elem_of_list_to_set (C := gset string)).
      rewrite <-(registry_keys (Addr := Addr) unpack_qubit), elem_of_dom.
      unfold dispatch in Hi.
      destruct (gates.STANDARD_GATES unpack_qubit !! key); [by eexists|done]. }
    split; [done|].
    destruct (registry_lookup unpack_qubit unpack_classical_reg key Hin)
      as [_ Heq].
    unfold dispatch in Hi. rewrite Heq in Hi.
    destruct (catalog_arities _ Hin) as (nq & np & Hin').
    destruct (catalog_call_returns _ _ _ _ _ Hin' Hi) as (qs & -> & _).
    by eexists _, _.
  - intros key args Hin. elem_cases Hin. all: reflexivity.
Qed.

Section rebuild.
(** [pack] turns a canonical qubit back into a designator the normalizer
    maps to that qubit. *)
Context (pack : Qubit → value).
Hypothesis unpack_pack : ∀ q, unpack_qubit (pack q) = inr q.

(** A gate is rebuilt from its own fields: the constructor named by the
    gate, called on the gate's parameters and on the designators of the
    gate's qubits, returns the gate again. *)
Theorem gate_rebuilt_from_fields name args n ps qs :
  invoke' name args = Some (inr (Gate n ps qs)) →
  invoke' n (ps ++ (pack <$> qs)) = Some (inr (Gate n ps qs)).
Proof using unpack_pack.
  intros Hi. pose proof (invoke_shape _ _ _ Hi) as [-> Hin].
  destruct (catalog_arities _ Hin) as (nq & np & Hin').
  destruct (catalog_call_split _ _ _ _ _ Hin' Hi)
    as (angles & qubits & -> & Ha & Hq).
  destruct (catalog_call_returns _ _ _ _ _ Hin' Hi) as (qs' & [= ? ?] & Hl & _).
  subst ps qs'. rewrite take_app_length' by done.
  rewrite (invoke_gate _ _ _ _ _ _ _ Hin' Ha).
  - f_equal. apply spec_gate_accept.
    clear -unpack_pack. induction qs; constructor; auto.
  - by rewrite length_fmap.
Qed.

End rebuild.

End results.

(** ** The normalizer calls a constructor makes *)

Section stateful_gates.
Import python quilbase.
Context {obj Qubit Addr W E : Type}.
Context (unpack_qubit : pyval obj → stexc W E Qubit).
Context (unpack_classical_reg : pyval obj → stexc W E Addr).

(** Over a program state too, a constructor of the catalog does what the
    specification's generic gate constructor does, state by state. *)
Lemma invoke_gate_stexc name nq np angles qubits :
  (name, (nq, np)) ∈ catalog → length angles = np → length qubits = nq →
  ∃ m, invoke unpack_qubit unpack_classical_reg name (angles ++ qubits)
       = Some m
       ∧ ∀ w, m w = spec_gate (Addr := Addr) unpack_qubit name angles qubits w.
Proof.
  intros Hin Ha Hq. unfold catalog in Hin. elem_cases Hin.
  all: length_cases angles; length_cases qubits.
  all: eexists; split; [reflexivity|]; intros w.
  all: unfold spec_gate, gates.I, gates.X, gates.Y, gates.Z, gates.H,
    gates.S, gates.T, gates.RX, gates.RY, gates.RZ, gates.PHASE; simpl.
  all: try reflexivity.
  all: unfold mbind, stexc_bind, mret, stexc_ret.
  all: by destruct (unpack_qubit _ w) as [[e|q] w'].
Qed.

End stateful_gates.

Section traces.
Import python quilbase.
Context {obj Qubit Addr Exn : Type}.
Context (unpack_qubit : pyval obj → exc Exn Qubit).
Context (unpack_classical_reg : pyval obj → exc Exn Addr).

Local Abbreviation value := (pyval obj).
Local Abbreviation plain := (invoke unpack_qubit unpack_classical_reg).
Local Abbreviation logging :=
  (invoke (traced QubitCall unpack_qubit)
          (traced RegisterCall unpack_classical_reg)).

(** A comprehension over traced normalizers: the plain result, and one
    entry in the log for each operand up to the first rejected one. *)
Lemma mapM_traced {A} (ev : value → event obj) (f : value → exc Exn A) l log :
  mapM (traced ev f) l log = (mapM f l, log ++ (ev <$> attempted f l)).
Proof.
  revert log. induction l as [|x l IH]; intros log.
  - simpl. unfold mret, stexc_ret, exc_ret. by rewrite app_nil_r.
  - rewrite mapM_exc_cons. simpl.
    unfold mbind, stexc_bind at 1. unfold traced at 1.
    destruct (f x) as [e|y]; [done|].
    unfold mbind, stexc_bind. rewrite IH.
    destruct (mapM f l) as [e|k]; simpl.
    all: unfold mret, stexc_ret; by rewrite <-app_assoc.
Qed.

(** The calls of the normalizers that a constructor makes, recorded in a
    log.  A constructor returns or raises what it does without the log, and
    it normalizes its operands, and nothing else, from left to right until
    one is rejected: the operands after a rejected one are never handed to
    a normalizer, a gate constructor never calls the register normalizer, a
    classical constructor never calls the qubit normalizer, and [MEASURE]
    normalizes its qubit before its register. *)
Theorem normalizer_calls :
  (∀ name nq np angles qubits,
     (name, (nq, np)) ∈ catalog →
     length angles = np → length qubits = nq →
     ∃ m r, logging name (angles ++ qubits) = Some m
            ∧ plain name (angles ++ qubits) = Some r
            ∧ ∀ log, m log
                     = (r, log ++ (QubitCall <$> attempted unpack_qubit qubits)))
  ∧ (∀ q r,
       ∃ m res, logging "MEASURE" [q; r] = Some m
                ∧ plain "MEASURE" [q; r] = Some res
                ∧ ∀ log, m log
                         = (res,
                            log ++ QubitCall q ::
                              match unpack_qubit q with
                              | inl _ => []
                              | inr _ =>
                                  if is_None r then [] else [RegisterCall r]
                              end))
  ∧ (∀ name r,
       name ∈ unary_classical →
       ∃ m res, logging name [r] = Some m
                ∧ plain name [r] = Some res
                ∧ ∀ log, m log = (res, log ++ [RegisterCall r]))
  ∧ (∀ name a b,
       name ∈ binary_classical →
       ∃ m res, logging name [a; b] = Some m
                ∧ plain name [a; b] = Some res
                ∧ ∀ log, m log
                         = (res,
                            log ++ (RegisterCall <$>
                                      attempted unpack_classical_reg [a; b]))).
Proof.
  split_and!.
  - intros name nq np angles qubits Hin Ha Hq.
    destruct (invoke_gate_stexc (traced QubitCall unpack_qubit)
                (traced RegisterCall unpack_classical_reg)
                name nq np angles qubits Hin Ha Hq) as (m & Hm & Hspec).
    exists m, (spec_gate unpack_qubit name angles qubits).
    split_and!; [done|exact (invoke_gate _ _ _ _ _ _ _ Hin Ha Hq)|].
    intros log. rewrite Hspec. unfold spec_gate.
    unfold mbind at 1, stexc_bind. rewrite mapM_traced.
    by destruct (mapM unpack_qubit qubits).
  - intros q r. eexists _, _. split_and!; [reflexivity..|].
    intros log. unfold gates.MEASURE, mbind, stexc_bind, exc_bind, traced.
    destruct (unpack_qubit q) as [e|q']; [done|].
    destruct (is_None r); simpl; [done|].
    rewrite <-app_assoc.
    by destruct (unpack_classical_reg r).
  - intros name r Hin. unfold unary_classical in Hin. elem_cases Hin.
    all: eexists _, _; split_and!; [reflexivity..|]; intros log.
    all: unfold gates.TRUE, gates.FALSE, gates.NOT, mbind, stexc_bind,
           exc_bind, traced.
    all: by destruct (unpack_classical_reg r).
  - intros name a b Hin. unfold binary_classical in Hin. elem_cases Hin.
    all: eexists _, _; split_and!; [reflexivity..|]; intros log.
    all: unfold gates.AND, gates.OR, gates.MOVE, gates.EXCHANGE, mbind,
           stexc_bind, exc_bind, traced; simpl.
    all: destruct (unpack_classical_reg a) as [e|a']; [done|].
    all: rewrite <-app_assoc.
    all: by destruct (unpack_classical_reg b).
Qed.

End traces.

(** ** The further properties at the concrete instance *)

Section further_witnesses.
Import python quilbase sample.

Local Abbreviation run := (invoke unpack_qubit unpack_classical_reg).

Lemma unpack_qubit_pack q : unpack_qubit (pack q) = inr q.
Proof.
  unfold unpack_qubit, pack.
  destruct (Z.leb_spec 0 (Z.of_nat q)); [|lia]. by rewrite Nat2Z.id.
Qed.

Lemma positional_arity_witness :
  ("CPHASE", (2, 1)) ∈ catalog
  ∧ is_Some (run "CPHASE" [int 1; int 0; int 1])
  ∧ ¬ is_Some (run "CPHASE" [int 0; int 1])
  ∧ is_Some (run "MEASURE" [int 0])
  ∧ ¬ is_Some (run "MEASURE" [int 0; int 1; int 2]).
Proof.
  assert (("CPHASE", (2, 1)) ∈ catalog) as Hin
    by (unfold catalog; repeat constructor).
  split_and!; [done|..].
  - exact (proj2 (proj1 (positional_arity unpack_qubit unpack_classical_reg
                           "CPHASE" [int 1; int 0; int 1]) 2 1 Hin) eq_refl).
  - intros Hs.
    pose proof (proj1 (proj1 (positional_arity unpack_qubit
                                unpack_classical_reg "CPHASE" [int 0; int 1])
                         2 1 Hin) Hs) as Hlen.
    discriminate Hlen.
  - exact (proj2 (proj1 (proj2 (positional_arity unpack_qubit
                                  unpack_classical_reg "MEASURE" [int 0]))
                    eq_refl) (or_introl eq_refl)).
  - intros Hs.
    destruct (proj1 (proj1 (proj2 (positional_arity unpack_qubit
                unpack_classical_reg "MEASURE" [int 0; int 1; int 2]))
                eq_refl) Hs) as [Hlen|Hlen]; discriminate Hlen.
Defined.

Lemma success_iff_accepted_witness :
  ("SWAP", (2, 0)) ∈ catalog
  ∧ (∃ i, run "SWAP" ([] ++ [int 4; int 5]) = Some (inr i))
  ∧ ¬ Forall (accepts unpack_qubit) [int 4; PyNone]
  ∧ ¬ (∃ i, run "SWAP" ([] ++ [int 4; PyNone]) = Some (inr i))
  ∧ "NOT" ∈ unary_classical
  ∧ ∃ i, run "NOT" [int 3] = Some (inr i).
Proof.
  assert (("SWAP", (2, 0)) ∈ catalog) as Hin
    by (unfold catalog; repeat constructor).
  assert ("NOT" ∈ unary_classical) as Hnot
    by (unfold unary_classical; repeat constructor).
  assert (¬ Forall (accepts unpack_qubit) [int 4; PyNone]) as Hrej.
  { intros Hall. apply Forall_cons_1 in Hall as [_ Hall].
    apply Forall_cons_1 in Hall as [[a Ha] _]. discriminate Ha. }
  destruct (success_iff_accepted unpack_qubit unpack_classical_reg)
    as (Hg & _ & _ & Hu & _).
  split_and!; [done| |done| |done|].
  - apply (Hg "SWAP" 2 0 [] [int 4; int 5] Hin eq_refl eq_refl).
    repeat constructor; eexists; reflexivity.
  - intros Hs. apply Hrej.
    exact (proj1 (Hg "SWAP" 2 0 [] [int 4; PyNone] Hin eq_refl eq_refl) Hs).
  - apply (Hu "NOT" (int 3) Hnot). by exists 3.
Defined.

Lemma result_class_witness :
  run "MEASURE" [int 1; int 2] = Some (inr (Measurement 1 (Some 2)))
  ∧ docstring_returns "MEASURE" = Some VMeasurement
  ∧ variant_of (Measurement (obj := Z) 1 (Some 2)) = VMeasurement
  ∧ variant_of (Measurement (obj := Z) 1 (Some 2))
    ∉ [VWait; VReset; VHalt; VNop].
Proof.
  destruct (result_class unpack_qubit unpack_classical_reg
              "MEASURE" [int 1; int 2] _ eq_refl) as (Hdoc & _ & Hnot).
  split_and!; [reflexivity|reflexivity|exact (Hdoc _ eq_refl)|exact Hnot].
Defined.

Lemma constructor_injective_witness :
  run "PHASE" [int 1; int 0] = Some (inr (Gate "PHASE" [int 1] [0]))
  ∧ ∀ name args,
      run name args = Some (inr (Gate "PHASE" [int 1] [0])) →
      name = "PHASE" ∧ take 1 args = [int 1].
Proof.
  split; [reflexivity|]. intros name args Hi.
  destruct (constructor_injective unpack_qubit unpack_classical_reg
              "PHASE" [int 1; int 0] name args _ eq_refl Hi) as [<- Hangles].
  split; [reflexivity|]. symmetry. apply (Hangles 1 1).
  unfold catalog. repeat constructor.
Defined.

Lemma registry_builds_named_gates_witness :
  dispatch (Addr := nat) unpack_qubit "ISWAP" [int 2; int 3]
  = Some (inr (Gate "ISWAP" [] [2; 3]))
  ∧ "ISWAP" ∈ catalog.*1
  ∧ dispatch (Addr := nat) unpack_qubit "MEASURE" [int 2] = None.
Proof.
  destruct (registry_builds_named_gates unpack_qubit unpack_classical_reg)
    as [Hg Hn].
  split_and!; [reflexivity| |].
  - exact (proj1 (Hg "ISWAP" [int 2; int 3] _ eq_refl)).
  - apply Hn. repeat constructor.
Defined.

Lemma gate_rebuilt_from_fields_witness :
  (∀ q, unpack_qubit (pack q) = inr q)
  ∧ run "CPHASE10" [PyNone; int 7; int 7]
    = Some (inr (Gate "CPHASE10" [PyNone] [7; 7]))
  ∧ run "CPHASE10" ([PyNone] ++ (pack <$> [7; 7]))
    = Some (inr (Gate "CPHASE10" [PyNone] [7; 7])).
Proof.
  split_and!; [exact unpack_qubit_pack|reflexivity|].
  exact (gate_rebuilt_from_fields unpack_qubit unpack_classical_reg
           pack unpack_qubit_pack "CPHASE10" [PyNone; int 7; int 7]
           "CPHASE10" [PyNone] [7; 7] eq_refl).
Defined.

Lemma normalizer_calls_witness :
  ("CCNOT", (3, 0)) ∈ catalog
  ∧ ∃ m, invoke (traced QubitCall unpack_qubit)
           (traced RegisterCall unpack_classical_reg)
           "CCNOT" ([] ++ [int 0; int (-1); int 2]) = Some m
         ∧ m [] = (inl (BadQubit (int (-1))),
                   [QubitCall (int 0); QubitCall (int (-1))]).
Proof.
  assert (("CCNOT", (3, 0)) ∈ catalog) as Hin
    by (unfold catalog; repeat constructor).
  split; [done|].
  destruct (proj1 (normalizer_calls unpack_qubit unpack_classical_reg)
              "CCNOT" 3 0 [] [int 0; int (-1); int 2] Hin eq_refl eq_refl)
    as (m & r & Hm & Hr & Hlog).
  exists m. split; [exact Hm|].
  injection Hr as <-. exact (Hlog []).
Defined.

End further_witnesses.
